(** * Lighthouse pulse processor: timestamp arithmetic and result bookkeeping

    Shallow embedding of [src/utils/interface/lighthouse/pulse_processor.h]
    of the Crazyflie firmware.  Unsigned 32-bit integers are carried as [Z]
    with the wrap-around written out, C arrays as lists indexed with stdpp's
    lookup, structs as records.  The header defines [TS_DIFF] and the data
    types; the bodies of [pulseProcessorClear] and of the V2 frame
    processing live in translation units that are not part of the examined
    sources and are modelled from the specification, each marked as such. *)

From Stdlib Require Import ZArith Lia.
From stdpp Require Import base list.

Local Open Scope Z_scope.

(** ** Machine integers *)

(** Value range of [uint32_t]. *)
Definition is_uint32 (z : Z) : Prop := 0 <= z < 2 ^ 32.

(** Conversion to [uint32_t]: reduction modulo 2^32. *)
Definition to_uint32 (z : Z) : Z := z mod 2 ^ 32.

(** A C [float], carried as its 32-bit IEEE-754 pattern; the claims about
    it only copy, compare and zero such values. *)
Definition float : Type := Z.

(** [0.0f] is the all-zero pattern. *)
Definition float_zero : float := 0.

(** ** Constants of the header *)

Definition PULSE_PROCESSOR_N_SWEEPS : nat := 2.
Definition PULSE_PROCESSOR_N_BASE_STATIONS : nat := 2.
Definition PULSE_PROCESSOR_N_SENSORS : nat := 4.
Definition PULSE_PROCESSOR_HISTORY_LENGTH : nat := 8.
Definition PULSE_PROCESSOR_TIMESTAMP_BITWIDTH : Z := 24.
Definition PULSE_PROCESSOR_TIMESTAMP_MAX : Z :=
  Z.shiftl 1 PULSE_PROCESSOR_TIMESTAMP_BITWIDTH - 1.

(** ** Timestamp difference *)

(** [TS_DIFF]: [x - y] is computed in [uint32_t] and masked with
    [(1 << PULSE_PROCESSOR_TIMESTAMP_BITWIDTH) - 1]. *)
Definition TS_DIFF (x y : Z) : Z :=
  let bitmask := to_uint32 (Z.shiftl 1 PULSE_PROCESSOR_TIMESTAMP_BITWIDTH - 1) in
  Z.land (to_uint32 (x - y)) bitmask.

(** A value of the 24-bit cyclic counter: at most
    [PULSE_PROCESSOR_TIMESTAMP_MAX]. *)
Definition is_timestamp (z : Z) : Prop :=
  0 <= z <= PULSE_PROCESSOR_TIMESTAMP_MAX.

(** Unfolds the ranges and the constants to numerals. *)
Ltac ts_ranges :=
  unfold is_timestamp, is_uint32 in *;
  change PULSE_PROCESSOR_TIMESTAMP_MAX with 16777215 in *;
  change (2 ^ 24) with 16777216 in *;
  change (2 ^ 32) with 4294967296 in *.

(** ** Data types of the header *)

(** [pulseProcessorV2Pulse_t]: data for one sweep and one sensor. *)
Record pulseProcessorV2Pulse_t := mkV2Pulse {
  p_timestamp : Z;
  p_offset : Z;
  p_channel : Z;
  p_slowbit : Z;
  p_channelFound : bool;
  p_isSet : bool
}.

(** [pulseProcessorV2PulseWorkspace_t]. *)
Record pulseProcessorV2PulseWorkspace_t := mkV2Workspace {
  sensors : list pulseProcessorV2Pulse_t;
  latestTimestamp : Z
}.

(** [pulseProcessorV2SweepBlock_t]: derived data for one sweep through all
    sensors; the header documents [timestamp] as the timestamp of sensor 0. *)
Record pulseProcessorV2SweepBlock_t := mkV2SweepBlock {
  b_offset : list Z;
  b_timestamp : Z;
  b_channel : Z;
  b_slowbit : Z
}.

(** [pulseProcessorBaseStationMeasuremnt_t]. *)
Record pulseProcessorBaseStationMeasuremnt_t := mkBaseStationMeasurement {
  angles : list float;
  correctedAngles : list float;
  validCount : Z
}.

(** [pulseProcessorSensorMeasurement_t]. *)
Record pulseProcessorSensorMeasurement_t := mkSensorMeasurement {
  baseStatonMeasurements : list pulseProcessorBaseStationMeasuremnt_t
}.

(** [pulseProcessorResult_t]. *)
Record pulseProcessorResult_t := mkResult {
  sensorMeasurements : list pulseProcessorSensorMeasurement_t
}.

(** [pulseProcessorFrame_t]. *)
Record pulseProcessorFrame_t := mkFrame {
  f_sensor : nat;
  f_timestamp : Z;
  f_width : Z;
  f_beamData : Z;
  f_offset : Z;
  f_channel : Z;
  f_slowbit : Z;
  f_channelFound : bool
}.

(** [angles->sensorMeasurements[sensor].baseStatonMeasurements[baseStation]],
    [None] outside the arrays. *)
Definition measurement (r : pulseProcessorResult_t) (sensor baseStation : nat)
  : option pulseProcessorBaseStationMeasuremnt_t :=
  sm ← sensorMeasurements r !! sensor;
  baseStatonMeasurements sm !! baseStation.

(** The array sizes the header fixes. *)
Definition sized_measurement (m : pulseProcessorBaseStationMeasuremnt_t) : bool :=
  (length (angles m) =? PULSE_PROCESSOR_N_SWEEPS)%nat
  && (length (correctedAngles m) =? PULSE_PROCESSOR_N_SWEEPS)%nat.

Definition sized_sensor (sm : pulseProcessorSensorMeasurement_t) : bool :=
  (length (baseStatonMeasurements sm) =? PULSE_PROCESSOR_N_BASE_STATIONS)%nat
  && forallb sized_measurement (baseStatonMeasurements sm).

Definition sized_result (r : pulseProcessorResult_t) : bool :=
  (length (sensorMeasurements r) =? PULSE_PROCESSOR_N_SENSORS)%nat
  && forallb sized_sensor (sensorMeasurements r).

(** [validCount] counts populated sweep axes: 0, 1 or 2. *)
Definition validCount_in_range (r : pulseProcessorResult_t) : Prop :=
  ∀ sensor baseStation m,
    measurement r sensor baseStation = Some m → 0 <= validCount m <= 2.

(** ** Loops over an array *)

(** [for (i = 0; i < n; i++) a[i] = body(i, a[i]);] on a list; an index past
    the end of the list changes nothing. *)
Definition for_each_index {A : Type} (n : nat) (body : nat → A → A)
    (a : list A) : list A :=
  foldl (λ acc i, alter (body i) i acc) a (seq 0 n).

(** The same loop applied to the measurement of one base station in every
    sensor of a result. *)
Definition update_base_station
    (g : pulseProcessorBaseStationMeasuremnt_t →
         pulseProcessorBaseStationMeasuremnt_t)
    (baseStation : nat) (r : pulseProcessorResult_t) : pulseProcessorResult_t :=
  mkResult
    (for_each_index PULSE_PROCESSOR_N_SENSORS
       (λ _ sm, mkSensorMeasurement
                  (alter g baseStation (baseStatonMeasurements sm)))
       (sensorMeasurements r)).

(** ** Clearing a result *)

(** Modelled from the spec: the value [pulseProcessorClear] leaves in a
    measurement, [validCount] reset to 0 and both angle arrays zeroed
    (spec 4.6). *)
Definition clearedMeasurement : pulseProcessorBaseStationMeasuremnt_t :=
  mkBaseStationMeasurement
    (replicate PULSE_PROCESSOR_N_SWEEPS float_zero)
    (replicate PULSE_PROCESSOR_N_SWEEPS float_zero)
    0.

(** Modelled from the spec: the body of [pulseProcessorClear], which the
    header only declares.  Spec 4.6: "resets validCount to 0 and zeroes both
    angle arrays for every sensor's measurement of that base station, leaving
    other base stations untouched". *)
Definition pulseProcessorClear (r : pulseProcessorResult_t) (baseStation : nat)
  : pulseProcessorResult_t :=
  update_base_station (λ _, clearedMeasurement) baseStation r.

(** ** V2 frame processing *)

Section V2.
(** Length of the timestamp window in ticks ("one sweep period"); the
    spec leaves the value open. *)
Variable sweepPeriod : Z.

(** Base station and axis a channel stands for; the spec leaves the
    mapping open. *)
Variable channelSlot : Z → nat * nat.

(** How the angles of a completed block are written into the result for
    its base station and axis; the spec leaves the computation open. *)
Variable writeAngles :
  pulseProcessorV2SweepBlock_t → nat → nat →
  pulseProcessorResult_t → pulseProcessorResult_t.

(** What a block holds where no populated entry contributes: the offset of
    a sensor without one, the timestamp when sensor 0 has none; the spec
    leaves it open. *)
Variable absentField : Z.

(** Modelled from the spec: the workspace entry a frame is stored as, with
    the fields the frame and [pulseProcessorV2Pulse_t] share and
    [isSet = true] (spec 4.4). *)
Definition pulseOfFrame (f : pulseProcessorFrame_t) : pulseProcessorV2Pulse_t :=
  mkV2Pulse (f_timestamp f) (f_offset f) (f_channel f) (f_slowbit f)
            (f_channelFound f) true.

(** Modelled from the spec: storing a pulse.  Spec 4.4: "Each incoming
    pulse for a sensor overwrites that sensor's V2PulseWorkspace slot
    (isSet=true) and updates latestTimestamp".  A sensor number outside the
    array, an out-of-bounds write in C, changes no slot here. *)
Definition storePulse (f : pulseProcessorFrame_t)
    (ws : pulseProcessorV2PulseWorkspace_t) : pulseProcessorV2PulseWorkspace_t :=
  mkV2Workspace (<[f_sensor f := pulseOfFrame f]> (sensors ws)) (f_timestamp f).

(** Modelled from the spec: an entry is in the current window when it is
    set and not older than the latest timestamp by more than one sweep
    period (spec 3); elapsed ticks are taken with [TS_DIFF] (spec 4.1). *)
Definition inWindow (latest : Z) (p : pulseProcessorV2Pulse_t) : bool :=
  p_isSet p && (TS_DIFF latest (p_timestamp p) <=? sweepPeriod).

(** Modelled from the spec: an entry "cleared to isSet=false" (spec 3);
    the other fields keep their values. *)
Definition unsetPulse (p : pulseProcessorV2Pulse_t) : pulseProcessorV2Pulse_t :=
  mkV2Pulse (p_timestamp p) (p_offset p) (p_channel p) (p_slowbit p)
            (p_channelFound p) false.

(** Modelled from the spec: dropping stale entries.  Spec 3: "stale entries
    (older than the current latest by more than one sweep period) are
    dropped rather than merged". *)
Definition dropStale (ws : pulseProcessorV2PulseWorkspace_t)
  : pulseProcessorV2PulseWorkspace_t :=
  mkV2Workspace
    (map (λ p, if inWindow (latestTimestamp ws) p then p else unsetPulse p)
         (sensors ws))
    (latestTimestamp ws).

(** Modelled from the spec: consuming the workspace.  Spec 3: "a workspace
    entry is consumed (cleared to isSet=false) once folded into a
    SweepBlock". *)
Definition consumeWorkspace (ws : pulseProcessorV2PulseWorkspace_t)
  : pulseProcessorV2PulseWorkspace_t :=
  mkV2Workspace (map unsetPulse (sensors ws)) (latestTimestamp ws).

(** Modelled from the spec: the offset an entry contributes to a block.
    Only a populated entry is merged: a stale entry is "dropped rather than
    merged" and a consumed one is cleared (spec 3 and 7). *)
Definition mergedOffset (p : pulseProcessorV2Pulse_t) : Z :=
  if p_isSet p then p_offset p else absentField.

(** Modelled from the spec: the timestamp sensor 0 contributes to a block,
    that of its entry when the entry is populated. *)
Definition sensor0Timestamp (ws : pulseProcessorV2PulseWorkspace_t) : Z :=
  match sensors ws !! 0%nat with
  | Some p => if p_isSet p then p_timestamp p else absentField
  | None => absentField
  end.

(** Modelled from the spec: assembling a sweep block from the populated
    entries of the workspace.  Spec 3: a sweep block holds "offset[4] (one
    per sensor), representative timestamp (sensor 0's), channel, slowbit";
    channel and slow bit are those of the pulse that completes the block. *)
Definition sweepBlockOf (ws : pulseProcessorV2PulseWorkspace_t)
    (f : pulseProcessorFrame_t) : pulseProcessorV2SweepBlock_t :=
  mkV2SweepBlock (map mergedOffset (sensors ws)) (sensor0Timestamp ws)
                 (f_channel f) (f_slowbit f).

(** Modelled from the spec: the V2 processing of one frame on the
    workspace, whose implementation is not part of the header.  Spec 4.4:
    a sweep block "is emitted once: (a) channelFound is true for the pulse
    [...] and (b) the workspace has at least one populated sensor within
    the current timestamp window"; otherwise "the pulse only updates
    workspace state without completing a block".  Forwarding of the slow
    bit to the OOTX decoders, which the spec places outside the core, is
    left out. *)
Definition processFrameV2 (ws : pulseProcessorV2PulseWorkspace_t)
    (f : pulseProcessorFrame_t)
  : pulseProcessorV2PulseWorkspace_t * option pulseProcessorV2SweepBlock_t :=
  let ws' := dropStale (storePulse f ws) in
  if f_channelFound f && existsb p_isSet (sensors ws')
  then (consumeWorkspace ws', Some (sweepBlockOf ws' f))
  else (ws', None).

(** Modelled from the spec: the state one call works on, the V2 workspace
    of the processor and the result structure of the caller (spec 2). *)
Record v2_state := mkV2State {
  pulseWorkspace : pulseProcessorV2PulseWorkspace_t;
  result : pulseProcessorResult_t
}.

(** Modelled from the spec: what one call reports, the completed block
    with its base station and axis (the call returns [true]) or nothing
    (it returns [false]); spec 4.7. *)
Definition v2_report : Type := option (pulseProcessorV2SweepBlock_t * nat * nat).

(** Modelled from the spec: [processPulse] of the V2 pipeline.  Spec 2:
    "when a full angle datum becomes available [...] writes it into the
    shared Result structure and reports which base station/axis just
    completed"; spec 4.7: "Returns matched=false when the pulse only
    updated internal state without completing an angle". *)
Definition processPulseV2 (st : v2_state) (f : pulseProcessorFrame_t)
  : v2_state * v2_report :=
  match processFrameV2 (pulseWorkspace st) f with
  | (ws', Some block) =>
      let '(baseStation, axis) := channelSlot (b_channel block) in
      (mkV2State ws' (writeAngles block baseStation axis (result st)),
       Some (block, baseStation, axis))
  | (ws', None) => (mkV2State ws' (result st), None)
  end.

(** Modelled from the spec: the driver delivering one frame at a time
    (spec 2); the reports are collected in the order of the frames. *)
Definition runV2 (st : v2_state) (fs : list pulseProcessorFrame_t)
  : v2_state * list v2_report :=
  foldl (λ acc f, let '(st', r) := processPulseV2 acc.1 f in (st', acc.2 ++ [r]))
        (st, []) fs.
End V2.

(** ** Sample data

    Concrete values on which the statements below are exercised. *)

Definition sample_measurement (k count : Z)
  : pulseProcessorBaseStationMeasuremnt_t :=
  mkBaseStationMeasurement [1000 + k; 2000 + k] [3000 + k; 4000 + k] count.

Definition sample_result : pulseProcessorResult_t :=
  mkResult
    [ mkSensorMeasurement [sample_measurement 0 2; sample_measurement 1 1];
      mkSensorMeasurement [sample_measurement 2 0; sample_measurement 3 2];
      mkSensorMeasurement [sample_measurement 4 1; sample_measurement 5 0];
      mkSensorMeasurement [sample_measurement 6 2; sample_measurement 7 1] ].

Definition sample_sweepPeriod : Z := 1000.

Definition sample_absentField : Z := 0.

Definition sample_channelSlot (channel : Z) : nat * nat :=
  (Z.to_nat (channel mod 2), Z.to_nat ((channel / 2) mod 2)).

(** Stores the offset of each sensor as its angle and counts the axis. *)
Definition sample_writeAngles (block : pulseProcessorV2SweepBlock_t)
    (baseStation axis : nat) (r : pulseProcessorResult_t)
  : pulseProcessorResult_t :=
  mkResult
    (imap (λ sensor sm,
             mkSensorMeasurement
               (alter (λ m, mkBaseStationMeasurement
                              (<[axis := default 0 (b_offset block !! sensor)]>
                                 (angles m))
                              (correctedAngles m)
                              (validCount m + 1))
                      baseStation (baseStatonMeasurements sm)))
          (sensorMeasurements r)).

Definition sample_workspace : pulseProcessorV2PulseWorkspace_t :=
  mkV2Workspace (replicate PULSE_PROCESSOR_N_SENSORS (mkV2Pulse 0 0 0 0 false false)) 0.

(** Two pulses with the same channel and offset on sensors 0 and 1, and one
    pulse whose channel was not decoded. *)
Definition sample_frame0 : pulseProcessorFrame_t := mkFrame 0 5000 0 0 123 3 1 true.
Definition sample_frame1 : pulseProcessorFrame_t := mkFrame 1 5040 0 0 123 3 1 true.
Definition sample_frame_unknown : pulseProcessorFrame_t :=
  mkFrame 2 5080 0 0 77 0 0 false.

Definition sample_state : v2_state := mkV2State sample_workspace sample_result.

(** * Properties *)

(** ** Timestamp difference *)

Lemma bitmask_ones :
  to_uint32 (Z.shiftl 1 PULSE_PROCESSOR_TIMESTAMP_BITWIDTH - 1) = Z.ones 24.
Proof. reflexivity. Qed.

Lemma bitmask_is_TIMESTAMP_MAX :
  to_uint32 (Z.shiftl 1 PULSE_PROCESSOR_TIMESTAMP_BITWIDTH - 1)
  = PULSE_PROCESSOR_TIMESTAMP_MAX.
Proof. reflexivity. Qed.

Lemma mod32_mod24 (a : Z) : (a mod 2 ^ 32) mod 2 ^ 24 = a mod 2 ^ 24.
Proof. apply Z.mod_mod_divide. exists (2 ^ 8). reflexivity. Qed.

(** The masked difference is the difference modulo 2^24, on all of [Z]. *)
Lemma TS_DIFF_mod (x y : Z) : TS_DIFF x y = (x - y) mod 2 ^ 24.
Proof.
  unfold TS_DIFF; cbv zeta.
  rewrite bitmask_ones, Z.land_ones by lia.
  apply mod32_mod24.
Qed.

Lemma TS_DIFF_range (x y : Z) : 0 <= TS_DIFF x y < 2 ^ 24.
Proof. rewrite TS_DIFF_mod. apply Z.mod_pos_bound. lia. Qed.

Lemma TS_DIFF_diag (x : Z) : TS_DIFF x x = 0.
Proof. rewrite TS_DIFF_mod, Z.sub_diag. reflexivity. Qed.

Lemma TS_DIFF_low_bits (x y : Z) :
  TS_DIFF x y = TS_DIFF (x mod 2 ^ 24) (y mod 2 ^ 24).
Proof.
  rewrite !TS_DIFF_mod.
  symmetry. rewrite Zminus_mod, !Z.mod_mod by lia.
  symmetry. apply Zminus_mod.
Qed.

(** C1: for 32-bit timestamps [x] and [y], [TS_DIFF x y] is [(x - y) mod 2^24]
    and lies in [0, 2^24); [TS_DIFF x x] is 0 and [TS_DIFF 0 (2^24 - 1)] is 1. *)
Theorem TS_DIFF_spec (x y : Z) (Hx : is_uint32 x) (Hy : is_uint32 y) :
  TS_DIFF x y = (x - y) mod 2 ^ 24
  ∧ 0 <= TS_DIFF x y < 2 ^ 24
  ∧ TS_DIFF x x = 0
  ∧ TS_DIFF 0 (2 ^ 24 - 1) = 1.
Proof.
  split; [apply TS_DIFF_mod |].
  split; [apply TS_DIFF_range |].
  split; [apply TS_DIFF_diag | reflexivity].
Qed.

Lemma TS_DIFF_spec_witness :
  is_uint32 5 ∧ is_uint32 4278190090
  ∧ TS_DIFF 5 4278190090 = 16777211
  ∧ 0 <= TS_DIFF 5 4278190090 < 2 ^ 24.
Proof.
  assert (Hx : is_uint32 5) by (unfold is_uint32; lia).
  assert (Hy : is_uint32 4278190090) by (unfold is_uint32; lia).
  destruct (TS_DIFF_spec 5 4278190090 Hx Hy) as (Heq & Hrange & _).
  split; [exact Hx |]. split; [exact Hy |].
  split; [rewrite Heq; reflexivity | exact Hrange].
Defined.

(** C10: [TS_DIFF] is defined on every pair of 32-bit values and depends
    only on the low 24 bits of each argument. *)
Theorem TS_DIFF_low_24_bits (x y : Z) (Hx : is_uint32 x) (Hy : is_uint32 y) :
  TS_DIFF x y = TS_DIFF (x mod 2 ^ 24) (y mod 2 ^ 24).
Proof. apply TS_DIFF_low_bits. Qed.

Lemma TS_DIFF_low_24_bits_witness :
  is_uint32 4278190085 ∧ is_uint32 2868903935
  ∧ TS_DIFF 4278190085 2868903935 = TS_DIFF 5 16777215.
Proof.
  assert (Hx : is_uint32 4278190085) by (unfold is_uint32; lia).
  assert (Hy : is_uint32 2868903935) by (unfold is_uint32; lia).
  split; [exact Hx |]. split; [exact Hy |].
  exact (TS_DIFF_low_24_bits 4278190085 2868903935 Hx Hy).
Defined.


(** ** The array loop *)

Lemma lookup_foldl_alter_seq {A : Type} (body : nat → A → A) (n j : nat)
    (a : list A) (i : nat) :
  foldl (λ acc k, alter (body k) k acc) a (seq j n) !! i
  = if decide (j ≤ i < j + n)%nat then body i <$> a !! i else a !! i.
Proof.
  revert j a. induction n as [| n IH]; intros j a; simpl.
  - case_decide; [lia | done].
  - rewrite IH. destruct (decide (i = j)) as [-> | Hne].
    + rewrite list_lookup_alter_eq.
      repeat case_decide; try lia; done.
    + rewrite list_lookup_alter_ne by done.
      repeat case_decide; try lia; done.
Qed.

Lemma lookup_for_each_index {A : Type} (n : nat) (body : nat → A → A)
    (a : list A) (i : nat) :
  for_each_index n body a !! i
  = if decide (i < n)%nat then body i <$> a !! i else a !! i.
Proof.
  unfold for_each_index. rewrite lookup_foldl_alter_seq.
  repeat case_decide; try lia; done.
Qed.


(** ** Updating one base station in every sensor *)

Lemma measurement_update_base_station g baseStation r sensor bs :
  measurement (update_base_station g baseStation r) sensor bs
  = if decide ((sensor < PULSE_PROCESSOR_N_SENSORS)%nat ∧ bs = baseStation)
    then g <$> measurement r sensor bs
    else measurement r sensor bs.
Proof.
  unfold measurement, update_base_station; simpl.
  rewrite lookup_for_each_index.
  destruct (decide (sensor < PULSE_PROCESSOR_N_SENSORS)%nat) as [Hs | Hs].
  - destruct (sensorMeasurements r !! sensor) as [sm |]; simpl.
    + destruct (decide (bs = baseStation)) as [-> | Hne].
      * rewrite list_lookup_alter_eq, decide_True; done.
      * rewrite list_lookup_alter_ne, decide_False; [done | tauto | done].
    + case_decide; done.
  - rewrite decide_False; [done | tauto].
Qed.


(** ** Array sizes *)

Lemma forallb_lookup {A : Type} (f : A → bool) (l : list A) :
  forallb f l = true ↔ ∀ i x, l !! i = Some x → f x = true.
Proof.
  rewrite forallb_forall. split.
  - intros H i x Hi. apply H, list_elem_of_In. by eapply list_elem_of_lookup_2.
  - intros H x [i Hi]%list_elem_of_In%list_elem_of_lookup_1. by eapply H.
Qed.


Lemma sized_result_sensor r sensor :
  sized_result r = true →
  (sensor < PULSE_PROCESSOR_N_SENSORS)%nat →
  ∃ sm, sensorMeasurements r !! sensor = Some sm ∧ sized_sensor sm = true.
Proof.
  unfold sized_result. intros [Hlen Hall]%andb_prop Hs.
  apply Nat.eqb_eq in Hlen.
  destruct (lookup_lt_is_Some_2 (sensorMeasurements r) sensor) as [sm Hsm];
    [lia |].
  exists sm. split; [done |].
  rewrite forallb_lookup in Hall. by eapply Hall.
Qed.

Lemma sized_result_measurement r sensor baseStation :
  sized_result r = true →
  (sensor < PULSE_PROCESSOR_N_SENSORS)%nat →
  (baseStation < PULSE_PROCESSOR_N_BASE_STATIONS)%nat →
  ∃ m, measurement r sensor baseStation = Some m ∧ sized_measurement m = true.
Proof.
  intros Hr Hs Hb.
  destruct (sized_result_sensor r sensor Hr Hs) as (sm & Hsm & Hsized).
  unfold sized_sensor in Hsized. apply andb_prop in Hsized as [Hlen Hall].
  apply Nat.eqb_eq in Hlen.
  destruct (lookup_lt_is_Some_2 (baseStatonMeasurements sm) baseStation)
    as [m Hm]; [lia |].
  exists m. split.
  - unfold measurement. rewrite Hsm. exact Hm.
  - rewrite forallb_lookup in Hall. by eapply Hall.
Qed.


(** ** Clearing a result *)

Lemma measurement_clear r baseStation sensor bs :
  measurement (pulseProcessorClear r baseStation) sensor bs
  = if decide ((sensor < PULSE_PROCESSOR_N_SENSORS)%nat ∧ bs = baseStation)
    then (λ _, clearedMeasurement) <$> measurement r sensor bs
    else measurement r sensor bs.
Proof. apply measurement_update_base_station. Qed.

Lemma measurement_clear_other r baseStation sensor bs :
  bs ≠ baseStation →
  measurement (pulseProcessorClear r baseStation) sensor bs
  = measurement r sensor bs.
Proof.
  intros Hne. rewrite measurement_clear, decide_False; [done | tauto].
Qed.



(** Clearing keeps [validCount] within 0..2 wherever it was. *)
Lemma clear_validCount_in_range r baseStation :
  validCount_in_range r → validCount_in_range (pulseProcessorClear r baseStation).
Proof.
  intros Hr sensor bs m. rewrite measurement_clear. case_decide.
  - destruct (measurement r sensor bs); [| done].
    simpl. intros [= <-]. simpl. lia.
  - apply Hr.
Qed.

(** C3: [pulseProcessorClear] sets [validCount] to 0 and zeroes both angle
    arrays in every sensor's measurement of the given base station, and
    leaves the measurements of every other base station as they were. *)
Theorem pulseProcessorClear_effect (r : pulseProcessorResult_t)
    (baseStation : nat)
    (Hsized : sized_result r = true)
    (Hbs : (baseStation < PULSE_PROCESSOR_N_BASE_STATIONS)%nat) :
  (∀ sensor, (sensor < PULSE_PROCESSOR_N_SENSORS)%nat →
     ∃ m, measurement (pulseProcessorClear r baseStation) sensor baseStation
          = Some m
          ∧ validCount m = 0
          ∧ angles m = [float_zero; float_zero]
          ∧ correctedAngles m = [float_zero; float_zero])
  ∧ (∀ sensor bs, bs ≠ baseStation →
       measurement (pulseProcessorClear r baseStation) sensor bs
       = measurement r sensor bs).
Proof.
  split.
  - intros sensor Hs.
    destruct (sized_result_measurement r sensor baseStation Hsized Hs Hbs)
      as (m0 & Hm0 & _).
    exists clearedMeasurement.
    rewrite measurement_clear, decide_True, Hm0 by done. done.
  - intros sensor bs. apply measurement_clear_other.
Qed.


(** ** V2 frame processing *)

Section V2Properties.
Context (sweepPeriod : Z).
Context (channelSlot : Z → nat * nat).
Context (writeAngles :
  pulseProcessorV2SweepBlock_t → nat → nat →
  pulseProcessorResult_t → pulseProcessorResult_t).
Context (absentField : Z).

Local Abbreviation processFrame := (processFrameV2 sweepPeriod absentField).
Local Abbreviation processPulse :=
  (processPulseV2 sweepPeriod channelSlot writeAngles absentField).
Local Abbreviation run := (runV2 sweepPeriod channelSlot writeAngles absentField).

(** *** Entries that are not populated stay out of a block *)

Lemma mergedOffset_unset p : mergedOffset absentField (unsetPulse p) = absentField.
Proof. done. Qed.

Lemma consumed_entries_not_merged ws f :
  b_offset (sweepBlockOf absentField (consumeWorkspace ws) f)
  = replicate (length (sensors ws)) absentField
  ∧ b_timestamp (sweepBlockOf absentField (consumeWorkspace ws) f) = absentField.
Proof.
  unfold sweepBlockOf, sensor0Timestamp, consumeWorkspace; simpl. split.
  - induction (sensors ws) as [| p l IH]; simpl; [done |]. by rewrite IH.
  - rewrite list_lookup_fmap. by destruct (sensors ws !! 0%nat).
Qed.

Lemma stale_entry_not_merged latest p :
  inWindow sweepPeriod latest p = false →
  mergedOffset absentField
    (if inWindow sweepPeriod latest p then p else unsetPulse p)
  = absentField.
Proof. by intros ->. Qed.

(** *** Emission of a sweep block *)

Lemma processFrame_emits ws f ws' block :
  processFrame ws f = (ws', Some block) →
  f_channelFound f = true
  ∧ block = sweepBlockOf absentField (dropStale sweepPeriod (storePulse f ws)) f.
Proof.
  unfold processFrameV2; cbv zeta.
  destruct (f_channelFound f) eqn:Hcf; simpl.
  - destruct (existsb _ _); intros [= <- <-]; done.
  - intros [= <- ?]; done.
Qed.

Lemma processFrame_not_found ws f :
  f_channelFound f = false →
  processFrame ws f = (dropStale sweepPeriod (storePulse f ws), None).
Proof. unfold processFrameV2; cbv zeta. by intros ->. Qed.

(** *** One call and sequences of calls *)

Lemma processPulse_not_found st f :
  f_channelFound f = false →
  processPulse st f
  = (mkV2State (dropStale sweepPeriod (storePulse f (pulseWorkspace st)))
               (result st),
     None).
Proof.
  intros Hcf. unfold processPulseV2. by rewrite processFrame_not_found.
Qed.

Lemma run_snoc st fs f :
  run st (fs ++ [f])
  = ((processPulse (run st fs).1 f).1,
     (run st fs).2 ++ [(processPulse (run st fs).1 f).2]).
Proof.
  unfold runV2. rewrite foldl_snoc.
  by destruct (processPulseV2 _ _ _ _ _).
Qed.

Lemma length_run_reports st fs : length (run st fs).2 = length fs.
Proof.
  induction fs as [| f fs IH] using rev_ind; [done |].
  rewrite run_snoc; simpl. rewrite !length_app, IH. done.
Qed.

(** The report at position [i] is the one of the call on frame [i], made in
    the state reached after the first [i] frames. *)
Lemma run_report_at st fs i f :
  fs !! i = Some f →
  (run st fs).2 !! i = Some (processPulse (run st (take i fs)).1 f).2.
Proof.
  revert i. induction fs as [| x fs IH] using rev_ind; intros i Hi; [done |].
  rewrite run_snoc; simpl.
  apply lookup_snoc_Some in Hi as [[Hlt Hi] | [-> ->]].
  - rewrite lookup_app_l by (by rewrite length_run_reports).
    rewrite take_app_le by lia. by apply IH.
  - rewrite take_app_length.
    apply list_lookup_middle. by rewrite length_run_reports.
Qed.

Lemma run_take_S st fs i f :
  fs !! i = Some f →
  (run st (take (S i) fs)).1 = (processPulse (run st (take i fs)).1 f).1.
Proof.
  intros Hi. by rewrite (take_S_r _ _ _ Hi), run_snoc.
Qed.

(** Frames without a decoded channel, however many, leave the result alone
    and report nothing. *)
Lemma run_all_not_found st fs :
  Forall (λ f, f_channelFound f = false) fs →
  result (run st fs).1 = result st
  ∧ Forall (λ r, r = None) (run st fs).2.
Proof.
  induction fs as [| f fs IH] using rev_ind; intros Hall.
  - split; [done | constructor].
  - rewrite Forall_app, Forall_singleton in Hall. destruct Hall as [Hfs Hf].
    destruct (IH Hfs) as [IHr IHn].
    rewrite run_snoc, processPulse_not_found by done. simpl.
    by rewrite Forall_app, Forall_singleton.
Qed.

(** C5: in the V2 pipeline a frame whose [channelFound] is false completes
    no sweep block and changes no [validCount]: at every position of every
    sequence of frames, such a frame reports nothing and the result after it
    is the result before it. *)
Theorem v2_channel_not_found_inert (st : v2_state)
    (fs : list pulseProcessorFrame_t) (i : nat) (f : pulseProcessorFrame_t)
    (Hi : fs !! i = Some f)
    (Hcf : f_channelFound f = false) :
  (run st fs).2 !! i = Some None
  ∧ (processFrame (pulseWorkspace (run st (take i fs)).1) f).2 = None
  ∧ result (run st (take (S i) fs)).1 = result (run st (take i fs)).1
  ∧ ∀ sensor baseStation,
      validCount <$> measurement (result (run st (take (S i) fs)).1)
                       sensor baseStation
      = validCount <$> measurement (result (run st (take i fs)).1)
                         sensor baseStation.
Proof.
  assert (Hres : result (run st (take (S i) fs)).1
                 = result (run st (take i fs)).1).
  { by rewrite (run_take_S _ _ _ _ Hi), processPulse_not_found. }
  split; [| split; [| split]].
  - by rewrite (run_report_at _ _ _ _ Hi), processPulse_not_found.
  - by rewrite processFrame_not_found.
  - exact Hres.
  - intros sensor baseStation. by rewrite Hres.
Qed.

End V2Properties.

(** ** The statements on sample data *)

Lemma pulseProcessorClear_effect_witness :
  sized_result sample_result = true
  ∧ (1 < PULSE_PROCESSOR_N_BASE_STATIONS)%nat
  ∧ measurement (pulseProcessorClear sample_result 1) 3 1
    = Some (mkBaseStationMeasurement [0; 0] [0; 0] 0)
  ∧ measurement (pulseProcessorClear sample_result 1) 3 0
    = Some (sample_measurement 6 2).
Proof.
  assert (Hsized : sized_result sample_result = true) by reflexivity.
  assert (Hbs : (1 < PULSE_PROCESSOR_N_BASE_STATIONS)%nat)
    by (unfold PULSE_PROCESSOR_N_BASE_STATIONS; lia).
  destruct (pulseProcessorClear_effect sample_result 1 Hsized Hbs)
    as [Hcleared Hframe].
  split; [exact Hsized |]. split; [exact Hbs |]. split.
  - assert (Hs : (3 < PULSE_PROCESSOR_N_SENSORS)%nat)
      by (unfold PULSE_PROCESSOR_N_SENSORS; lia).
    destruct (Hcleared 3%nat Hs) as (m & -> & Hv & Ha & Hc).
    destruct m as [a c v]; simpl in *. by rewrite Hv, Ha, Hc.
  - rewrite Hframe by lia. reflexivity.
Defined.


Lemma v2_channel_not_found_inert_witness :
  let fs := [sample_frame0; sample_frame_unknown; sample_frame1] in
  let run := runV2 sample_sweepPeriod sample_channelSlot sample_writeAngles
               sample_absentField sample_state in
  fs !! 1%nat = Some sample_frame_unknown
  ∧ f_channelFound sample_frame_unknown = false
  ∧ (run fs).2 !! 1%nat = Some None
  ∧ result (run (take 2 fs)).1 = result (run (take 1 fs)).1.
Proof.
  intros fs run.
  assert (Hi : fs !! 1%nat = Some sample_frame_unknown) by reflexivity.
  assert (Hcf : f_channelFound sample_frame_unknown = false) by reflexivity.
  destruct (v2_channel_not_found_inert sample_sweepPeriod sample_channelSlot
              sample_writeAngles sample_absentField sample_state fs 1
              sample_frame_unknown Hi Hcf)
    as (Hreport & _ & Hresult & _).
  split; [exact Hi |]. split; [exact Hcf |]. split; [exact Hreport |].
  exact Hresult.
Defined.

(** ** More on the timestamp difference *)

Lemma TIMESTAMP_MAX_ones : PULSE_PROCESSOR_TIMESTAMP_MAX = Z.ones 24.
Proof. reflexivity. Qed.

Lemma land_TIMESTAMP_MAX (x : Z) :
  Z.land x PULSE_PROCESSOR_TIMESTAMP_MAX = x mod 2 ^ 24.
Proof. rewrite TIMESTAMP_MAX_ones. apply Z.land_ones. lia. Qed.

(** Conversion of the operands to [uint32_t] does not show in the result. *)
Lemma TS_DIFF_to_uint32 (a b : Z) :
  TS_DIFF (to_uint32 a) (to_uint32 b) = (a - b) mod 2 ^ 24.
Proof.
  rewrite TS_DIFF_mod. unfold to_uint32.
  rewrite Zminus_mod, !mod32_mod24. symmetry. apply Zminus_mod.
Qed.

(** The difference to a timestamp reached by advancing the counter. *)
Lemma TS_DIFF_after (y d : Z) :
  TS_DIFF (to_uint32 (y + d)) y = d mod 2 ^ 24.
Proof.
  rewrite TS_DIFF_mod. unfold to_uint32.
  rewrite Zminus_mod, mod32_mod24, <- Zminus_mod.
  f_equal. lia.
Qed.

(** X1: when [x] is at or after [y] and less than one counter period ahead,
    [TS_DIFF x y] is the plain difference [x - y]. *)
Theorem TS_DIFF_elapsed_exact (x y : Z)
    (Hx : is_uint32 x) (Hy : is_uint32 y) (Hd : 0 <= x - y < 2 ^ 24) :
  TS_DIFF x y = x - y.
Proof. rewrite TS_DIFF_mod. apply Z.mod_small. exact Hd. Qed.

Lemma TS_DIFF_elapsed_exact_witness :
  is_uint32 4278190090 ∧ is_uint32 4278190080
  ∧ TS_DIFF 4278190090 4278190080 = 10.
Proof.
  assert (Hx : is_uint32 4278190090) by (unfold is_uint32; lia).
  assert (Hy : is_uint32 4278190080) by (unfold is_uint32; lia).
  split; [exact Hx |]. split; [exact Hy |].
  apply (TS_DIFF_elapsed_exact 4278190090 4278190080 Hx Hy). lia.
Defined.

(** X2: for two counter values with [x] below [y], the counter has wrapped
    between them: [TS_DIFF x y] counts the ticks from [y] up to
    [PULSE_PROCESSOR_TIMESTAMP_MAX], one tick for the wrap to 0, and [x]. *)
Theorem TS_DIFF_across_wrap (x y : Z)
    (Hx : is_timestamp x) (Hy : is_timestamp y) (Hlt : x < y) :
  TS_DIFF x y = (PULSE_PROCESSOR_TIMESTAMP_MAX - y) + 1 + x.
Proof.
  rewrite TS_DIFF_mod. ts_ranges.
  symmetry. apply (Z.mod_unique_pos _ _ (-1)); lia.
Qed.

Lemma TS_DIFF_across_wrap_witness :
  is_timestamp 3 ∧ is_timestamp 16777210 ∧ TS_DIFF 3 16777210 = 9.
Proof.
  assert (Hx : is_timestamp 3) by (ts_ranges; lia).
  assert (Hy : is_timestamp 16777210) by (ts_ranges; lia).
  split; [exact Hx |]. split; [exact Hy |].
  rewrite (TS_DIFF_across_wrap 3 16777210 Hx Hy); [reflexivity | lia].
Defined.

(** X3: [TS_DIFF x y] is 0 exactly when [x] and [y] agree on their low 24
    bits; for two counter values, exactly when they are equal. *)
Theorem TS_DIFF_zero_iff (x y : Z) (Hx : is_uint32 x) (Hy : is_uint32 y) :
  (TS_DIFF x y = 0
   ↔ Z.land x PULSE_PROCESSOR_TIMESTAMP_MAX
     = Z.land y PULSE_PROCESSOR_TIMESTAMP_MAX)
  ∧ (is_timestamp x → is_timestamp y → (TS_DIFF x y = 0 ↔ x = y)).
Proof.
  rewrite !land_TIMESTAMP_MAX, TS_DIFF_mod. ts_ranges.
  split; [| intros Htx Hty]; Z.div_mod_to_equations; lia.
Qed.

Lemma TS_DIFF_zero_iff_witness :
  is_uint32 4278190085 ∧ is_uint32 2868903941
  ∧ TS_DIFF 4278190085 2868903941 = 0.
Proof.
  assert (Hx : is_uint32 4278190085) by (unfold is_uint32; lia).
  assert (Hy : is_uint32 2868903941) by (unfold is_uint32; lia).
  split; [exact Hx |]. split; [exact Hy |].
  apply (proj1 (TS_DIFF_zero_iff 4278190085 2868903941 Hx Hy)). reflexivity.
Defined.



(** X5: the difference of two timestamps can be taken from their differences
    to any common reference [y]. *)
Theorem TS_DIFF_common_reference (x y z : Z)
    (Hx : is_uint32 x) (Hy : is_uint32 y) (Hz : is_uint32 z) :
  TS_DIFF (TS_DIFF x y) (TS_DIFF z y) = TS_DIFF x z.
Proof.
  rewrite !TS_DIFF_mod, <- Zminus_mod. f_equal. lia.
Qed.

Lemma TS_DIFF_common_reference_witness :
  is_uint32 100 ∧ is_uint32 16777000 ∧ is_uint32 40
  ∧ TS_DIFF (TS_DIFF 100 16777000) (TS_DIFF 40 16777000) = TS_DIFF 100 40.
Proof.
  assert (Hx : is_uint32 100) by (unfold is_uint32; lia).
  assert (Hy : is_uint32 16777000) by (unfold is_uint32; lia).
  assert (Hz : is_uint32 40) by (unfold is_uint32; lia).
  split; [exact Hx |]. split; [exact Hy |]. split; [exact Hz |].
  exact (TS_DIFF_common_reference 100 16777000 40 Hx Hy Hz).
Defined.

(** X6: differences add up along a chain [z], [y], [x] modulo the counter
    period, and exactly when the two legs together stay below 2^24. *)
Theorem TS_DIFF_chain (x y z : Z)
    (Hx : is_uint32 x) (Hy : is_uint32 y) (Hz : is_uint32 z) :
  TS_DIFF x z = (TS_DIFF x y + TS_DIFF y z) mod 2 ^ 24
  ∧ (TS_DIFF x y + TS_DIFF y z < 2 ^ 24 →
     TS_DIFF x z = TS_DIFF x y + TS_DIFF y z).
Proof.
  assert (Hsum : TS_DIFF x z = (TS_DIFF x y + TS_DIFF y z) mod 2 ^ 24).
  { rewrite !TS_DIFF_mod, <- Zplus_mod. f_equal. lia. }
  split; [exact Hsum |].
  intros Hlt. rewrite Hsum. apply Z.mod_small.
  pose proof (TS_DIFF_range x y). pose proof (TS_DIFF_range y z). lia.
Qed.

Lemma TS_DIFF_chain_witness :
  is_uint32 50 ∧ is_uint32 16777200 ∧ is_uint32 16777000
  ∧ TS_DIFF 50 16777200 + TS_DIFF 16777200 16777000 < 2 ^ 24
  ∧ TS_DIFF 50 16777000 = TS_DIFF 50 16777200 + TS_DIFF 16777200 16777000.
Proof.
  assert (Hx : is_uint32 50) by (unfold is_uint32; lia).
  assert (Hy : is_uint32 16777200) by (unfold is_uint32; lia).
  assert (Hz : is_uint32 16777000) by (unfold is_uint32; lia).
  assert (Hlt : TS_DIFF 50 16777200 + TS_DIFF 16777200 16777000 < 2 ^ 24)
    by (vm_compute; reflexivity).
  split; [exact Hx |]. split; [exact Hy |]. split; [exact Hz |].
  split; [exact Hlt |].
  exact (proj2 (TS_DIFF_chain 50 16777200 16777000 Hx Hy Hz) Hlt).
Defined.

(** X7: advancing [y] by [d] ticks, [d] below one counter period, in
    [uint32_t] arithmetic gives a timestamp whose difference to [y] is [d];
    and advancing [y] by [TS_DIFF x y] gives back the low 24 bits of [x]. *)
Theorem TS_DIFF_advance (x y d : Z)
    (Hx : is_uint32 x) (Hy : is_uint32 y) (Hd : 0 <= d < 2 ^ 24) :
  TS_DIFF (to_uint32 (y + d)) y = d
  ∧ Z.land (to_uint32 (y + TS_DIFF x y)) PULSE_PROCESSOR_TIMESTAMP_MAX
    = Z.land x PULSE_PROCESSOR_TIMESTAMP_MAX.
Proof.
  split.
  - rewrite TS_DIFF_after. apply Z.mod_small. exact Hd.
  - rewrite !land_TIMESTAMP_MAX, TS_DIFF_mod. unfold to_uint32.
    rewrite mod32_mod24, Zplus_mod_idemp_r. f_equal. lia.
Qed.

Lemma TS_DIFF_advance_witness :
  is_uint32 7 ∧ is_uint32 4294967290
  ∧ TS_DIFF (to_uint32 (4294967290 + 13)) 4294967290 = 13
  ∧ Z.land (to_uint32 (4294967290 + TS_DIFF 7 4294967290))
      PULSE_PROCESSOR_TIMESTAMP_MAX
    = 7.
Proof.
  assert (Hx : is_uint32 7) by (unfold is_uint32; lia).
  assert (Hy : is_uint32 4294967290) by (unfold is_uint32; lia).
  assert (Hd : 0 <= 13 < 2 ^ 24) by lia.
  destruct (TS_DIFF_advance 7 4294967290 13 Hx Hy Hd) as [Hfwd Hback].
  split; [exact Hx |]. split; [exact Hy |]. split; [exact Hfwd |].
  rewrite Hback. reflexivity.
Defined.

(** X8: within one counter period after a reference [y], [TS_DIFF] keeps
    the order of events, also when the counter wraps between them. *)
Theorem TS_DIFF_order (y d1 d2 : Z)
    (Hy : is_uint32 y) (Hd : 0 <= d1 <= d2) (Hd2 : d2 < 2 ^ 24) :
  TS_DIFF (to_uint32 (y + d1)) y <= TS_DIFF (to_uint32 (y + d2)) y.
Proof.
  rewrite !TS_DIFF_after, !Z.mod_small by lia. lia.
Qed.

Lemma TS_DIFF_order_witness :
  is_uint32 4294967290
  ∧ to_uint32 (4294967290 + 3) = 4294967293
  ∧ to_uint32 (4294967290 + 20) = 14
  ∧ TS_DIFF 4294967293 4294967290 <= TS_DIFF 14 4294967290.
Proof.
  assert (Hy : is_uint32 4294967290) by (unfold is_uint32; lia).
  split; [exact Hy |]. split; [reflexivity |]. split; [reflexivity |].
  apply (TS_DIFF_order 4294967290 3 20 Hy); lia.
Defined.

(** X9: reducing tick counts to [uint32_t] before the call does not change
    the result: for any two integers, [TS_DIFF] of their 32-bit values is
    their difference modulo 2^24. *)
Theorem TS_DIFF_free_running (a b : Z) :
  TS_DIFF (to_uint32 a) (to_uint32 b) = (a - b) mod 2 ^ 24
  ∧ is_uint32 (to_uint32 a) ∧ is_uint32 (to_uint32 b).
Proof.
  split; [apply TS_DIFF_to_uint32 |].
  unfold is_uint32, to_uint32. split; apply Z.mod_pos_bound; lia.
Qed.

(** X10: the results of [TS_DIFF] are exactly the counter values: every
    result is at most [PULSE_PROCESSOR_TIMESTAMP_MAX], and every value up to
    it is the difference of two 32-bit timestamps. *)
Theorem TS_DIFF_image (t : Z) :
  is_timestamp t ↔ ∃ x y, is_uint32 x ∧ is_uint32 y ∧ TS_DIFF x y = t.
Proof.
  split.
  - intros Ht. exists t, 0.
    split; [ts_ranges; lia |]. split; [ts_ranges; lia |].
    rewrite TS_DIFF_mod, Z.sub_0_r. apply Z.mod_small. ts_ranges. lia.
  - intros (x & y & _ & _ & <-).
    pose proof (TS_DIFF_range x y). ts_ranges. lia.
Qed.
